(** * generate_preseed.py: rendering a preseed.cfg from a template

    A shallow embedding of [preseed-framework/generate_preseed.py] and the
    properties of its specification.

    Texts (Python [str]) are lists of characters.  The file system is a
    finite map from path strings to nodes.  The two library calls whose
    code is not part of the repository, [json.load] and [Path(__file__)],
    are the variables of the section that holds [main]. *)

From Stdlib Require Import ZArith Ascii String DecimalString.
From stdpp Require Import gmap strings list fin_maps.

Local Open Scope list_scope.

(** ** Texts *)

Abbreviation text := (list ascii).

(** A text written as a string literal. *)
Definition txt (s : string) : text := list_ascii_of_string s.

Definition lbrace : ascii := "{"%char.
Definition rbrace : ascii := "}"%char.

(** ** [str.startswith], [in] and [str.replace] *)

Fixpoint startswith (p s : text) : bool :=
  match p, s with
  | [], _ => true
  | _ :: _, [] => false
  | a :: p', b :: s' => if decide (a = b) then startswith p' s' else false
  end.

(** [occurs p s] is Python's [p in s]. *)
Fixpoint occurs (p s : text) : bool :=
  startswith p s ||
  match s with
  | [] => false
  | _ :: s' => occurs p s'
  end.

(** The scan of [str.replace] for a non-empty [old]: left to right, the
    leftmost occurrence is replaced and the scan resumes behind it, so the
    replaced occurrences do not overlap and the inserted text is not
    scanned again.  [skip] counts the characters of a matched occurrence
    that are still to be dropped. *)
Fixpoint replace_scan (old new : text) (skip : nat) (s : text) : text :=
  match s with
  | [] => []
  | c :: s' =>
      match skip with
      | S n => replace_scan old new n s'
      | O =>
          if startswith old s
          then new ++ replace_scan old new (length old - 1) s'
          else c :: replace_scan old new 0 s'
      end
  end.

(** With an empty [old], [str.replace] puts [new] in front of every
    character and at the end. *)
Fixpoint replace_empty (new s : text) : text :=
  match s with
  | [] => new
  | c :: s' => new ++ c :: replace_empty new s'
  end.

(** [replace old new s] is [s.replace(old, new)]. *)
Definition replace (old new s : text) : text :=
  match old with
  | [] => replace_empty new s
  | _ :: _ => replace_scan old new 0 s
  end.

(** ** Configuration values and [str] *)

(** The values of the mapping that [json.load] returns.  A float, a list
    or a nested dict is carried with the text [str] gives it. *)
Inductive value : Type :=
  | JNull
  | JBool (b : bool)
  | JInt (z : Z)
  | JString (s : text)
  | JOther (repr : text).

(** [py_str v] is [str(value)]. *)
Definition py_str (v : value) : text :=
  match v with
  | JNull => txt "None"
  | JBool true => txt "True"
  | JBool false => txt "False"
  | JInt z => txt (NilZero.string_of_int (Z.to_int z))
  | JString s => s
  | JOther repr => repr
  end.

(** The items of a dict, in iteration order. *)
Abbreviation items := (list (text * value)).

Definition keys (config : items) : list text := config.*1.

(** ** The substitution loop *)

(** [placeholder key] is the f-string [f"{{{{{key}}}}}"]: two opening
    braces, the key, two closing braces. *)
Definition placeholder (key : text) : text :=
  lbrace :: lbrace :: key ++ [rbrace; rbrace].

(** One iteration of the loop of [main]. *)
Definition substitute (content : text) (kv : text * value) : text :=
  replace (placeholder kv.1) (py_str kv.2) content.

(** The loop [for key, value in config.items()]. *)
Definition render (config : items) (content : text) : text :=
  fold_left substitute config content.

(** ** Braces *)

Definition is_brace (c : ascii) : bool :=
  bool_decide (c = lbrace) || bool_decide (c = rbrace).

(** A text without any brace character. *)
Definition brace_free (s : text) : bool := forallb (λ c, negb (is_brace c)) s.

(** ** Templates as token lists

    The templates the script is meant for: literal text without braces,
    and placeholders [{{identifier}}] with brace-free identifiers. *)

Inductive token : Type :=
  | Lit (s : text)
  | Ph (id : text).

Definition token_text (tok : token) : text :=
  match tok with
  | Lit s => s
  | Ph id => placeholder id
  end.

(** The template text a token list stands for. *)
Definition template_text (toks : list token) : text :=
  concat (map token_text toks).

Definition token_ok (tok : token) : bool :=
  match tok with
  | Lit s => brace_free s
  | Ph id => brace_free id
  end.

Definition well_formed (toks : list token) : bool := forallb token_ok toks.

(** A configuration whose keys and value texts have no brace. *)
Definition plain_item (kv : text * value) : bool :=
  brace_free kv.1 && brace_free (py_str kv.2).

Definition plain_config (config : items) : bool := forallb plain_item config.

(** [get key config] is [config[key]] on the items of a dict. *)
Fixpoint get (key : text) (config : items) : option value :=
  match config with
  | [] => None
  | (k, v) :: rest => if decide (k = key) then Some v else get key rest
  end.

(** What one call of [replace] does to a token. *)
Definition subst_token (key new : text) (tok : token) : token :=
  match tok with
  | Lit s => Lit s
  | Ph id => if decide (key = id) then Lit new else Ph id
  end.

(** What the whole loop does to a token. *)
Definition resolve (config : items) (tok : token) : token :=
  match tok with
  | Lit s => Lit s
  | Ph id =>
      match get id config with
      | Some v => Lit (py_str v)
      | None => Ph id
      end
  end.

(** ** The program *)

(** Exceptions. *)

Inductive exn : Type :=
  | SystemExit (message : text)
  | JSONDecodeError
  | AttributeError
  | FileNotFoundError
  | IsADirectoryError
  | UnicodeDecodeError.

Inductive result (A : Type) : Type :=
  | Ok (a : A)
  | Raise (e : exn).
Arguments Ok {A} a.
Arguments Raise {A} e.

#[global] Instance result_ret : MRet result := λ A a, Ok a.
#[global] Instance result_bind : MBind result := λ A B f m,
  match m with
  | Ok a => f a
  | Raise e => Raise e
  end.

(** Paths and files. *)

(** A path: the directory part, with its closing separator when there is
    one, and the final component. *)
Record Path : Type := { parent : string; name : string }.

Definition with_name (p : Path) (n : string) : Path :=
  {| parent := parent p; name := n |}.

(** [path_str p] is [str(p)]. *)
Definition path_str (p : Path) : string := (parent p ++ name p)%string.

(** What is at a path: a file with the text that reading it returns, a
    directory, or a file whose bytes are no text in the encoding of the
    reader. *)
Inductive node : Type :=
  | File (content : text)
  | Dir
  | Undecodable.

(** The file system: what is at each path. *)
Abbreviation filesystem := (gmap string node).

(** [Path.exists]. *)
Definition path_exists (fs : filesystem) (p : Path) : bool :=
  bool_decide (is_Some (fs !! path_str p)).

(** [with p.open() as f: f.read()], and the read inside [json.load(f)]:
    a directory cannot be opened, bytes that are no text cannot be
    decoded. *)
Definition read_text (fs : filesystem) (p : Path) : result text :=
  match fs !! path_str p with
  | Some (File content) => Ok content
  | Some Dir => Raise IsADirectoryError
  | Some Undecodable => Raise UnicodeDecodeError
  | None => Raise FileNotFoundError
  end.

(** [Path.write_text]: the file is created, or truncated and rewritten,
    whatever it held; a directory in its place cannot be opened.  The
    permissions of the path and the encoding of the text to bytes are no
    part of the file system here: [Ok] stands for a write that went
    through. *)
Definition write_text (fs : filesystem) (p : Path) (content : text)
    : result filesystem :=
  match fs !! path_str p with
  | Some Dir => Raise IsADirectoryError
  | _ => Ok (<[path_str p := File content]> fs)
  end.

(** Decoded documents. *)

(** What [json.load] returns: a dict, or an object of another type. *)
Inductive document : Type :=
  | JObject (config : items)
  | JNotObject.

(** [config.items()]: only a dict has the method. *)
Definition dict_items (d : document) : result items :=
  match d with
  | JObject config => Ok config
  | JNotObject => Raise AttributeError
  end.

(** How a run ends: the exit status, the lines printed on standard output
    and the file system it leaves. *)
Record run : Type := {
  status : option exn;
  stdout : list text;
  files : filesystem;
}.

(** The exit code of the interpreter: 0 when [main] returns, 1 when an
    exception reaches the top level, [SystemExit] with a message
    included. *)
Definition exit_code (r : run) : Z :=
  match status r with
  | None => 0
  | Some _ => 1
  end.

Section Program.

(** [Path(__file__)], the location of the script. *)
Variable script : Path.

(** [json.load], on the text of the file. *)
Variable json_load : text → result document.

Definition CONFIG_PATH : Path := with_name script "config.json".
Definition TEMPLATE_PATH : Path := with_name script "template.cfg".
Definition OUTPUT_PATH : Path := with_name script "preseed.cfg".

Definition not_found (what : string) (p : Path) : text :=
  txt what ++ txt " file " ++ txt (path_str p) ++ txt " not found".

Definition generated (p : Path) : text := txt "Generated " ++ txt (path_str p).

(** The body of [main]: the file system and the output it leaves, or
    the exception it raises. *)
Definition main_body (fs : filesystem) : result (filesystem * list text) :=
  if negb (path_exists fs CONFIG_PATH)
  then Raise (SystemExit (not_found "Config" CONFIG_PATH))
  else if negb (path_exists fs TEMPLATE_PATH)
  then Raise (SystemExit (not_found "Template" TEMPLATE_PATH))
  else
    f ← read_text fs CONFIG_PATH;
    config ← json_load f;
    content ← read_text fs TEMPLATE_PATH;
    kvs ← dict_items config;
    let content := render kvs content in
    fs' ← write_text fs OUTPUT_PATH content;
    mret (fs', [generated OUTPUT_PATH]).

(** A run of the script.  An exception leaves the files as they
    were. *)
Definition main (fs : filesystem) : run :=
  match main_body fs with
  | Ok (fs', out) => {| status := None; stdout := out; files := fs' |}
  | Raise e => {| status := Some e; stdout := []; files := fs |}
  end.

End Program.

(** * Examples *)

(** The example of the specification. *)
Definition node_config : items :=
  [(txt "hostname", JString (txt "node1")); (txt "port", JInt 8080)].

Definition node_template : text :=
  txt "host={{hostname}} port={{port}} debug={{debug}}".

Definition node_tokens : list token :=
  [Lit (txt "host="); Ph (txt "hostname"); Lit (txt " port=");
   Ph (txt "port"); Lit (txt " debug="); Ph (txt "debug")].

(** A value that mentions the placeholder of another key, the other key
    coming first or last in the iteration order. *)
Definition name_then_greeting : items :=
  [(txt "name", JString (txt "bob"));
   (txt "greeting", JString (txt "hello {{name}}"))].

Definition greeting_then_name : items :=
  [(txt "greeting", JString (txt "hello {{name}}"));
   (txt "name", JString (txt "bob"))].

(** Two keys whose values have no brace, and a template in which one
    placeholder is nested in the other. *)
Definition ab_then_c : items :=
  [(txt "ab", JString (txt "X")); (txt "c", JString (txt "b"))].

Definition c_then_ab : items :=
  [(txt "c", JString (txt "b")); (txt "ab", JString (txt "X"))].

Definition nested_template : text := txt "{{a{{c}}}}".

(** A key that spans two placeholders of the template. *)
Definition spanning_config : items :=
  [(txt "host}}:{{port", JString (txt "localhost:80"))].

Definition host_port_template : text := txt "{{host}}:{{port}}".

(** [mentions config template]: the placeholder of some key occurs in the
    template. *)
Definition mentions (config : items) (template : text) : bool :=
  existsb (λ key, occurs (placeholder key) template) (keys config).

(** [exposes config]: the text of some value contains the placeholder of
    some key. *)
Definition exposes (config : items) : bool :=
  existsb (λ kv, mentions config (py_str kv.2)) config.

(** The location of the script in the examples. *)
Definition example_script : Path :=
  {| parent := "/srv/preseed-framework/"; name := "generate_preseed.py" |}.

Definition quote : ascii := "034"%char.

Definition quoted (s : text) : text := quote :: s ++ [quote].

(** The JSON document of the example mapping. *)
Definition node_document : text :=
  txt "{" ++ quoted (txt "hostname") ++ txt ": " ++ quoted (txt "node1")
  ++ txt ", " ++ quoted (txt "port") ++ txt ": 8080}".

(** What [json.load] answers on the documents of the examples: the
    example mapping, the empty object, an array, which is a document but
    no mapping, and an opening brace alone, which is no document.  The
    examples use no other text. *)
Definition example_load (s : text) : result document :=
  if decide (s = node_document) then Ok (JObject node_config)
  else if decide (s = txt "{}") then Ok (JObject [])
  else if decide (s = txt "[]") then Ok JNotObject
  else Raise JSONDecodeError.

(** File systems of the examples: both inputs and an older output; a
    configuration that is no JSON document; no template. *)
Definition example_files : filesystem :=
  {[ "/srv/preseed-framework/config.json" := File node_document;
     "/srv/preseed-framework/template.cfg" := File node_template;
     "/srv/preseed-framework/preseed.cfg" := File (txt "stale") ]}.

Definition malformed_files : filesystem :=
  {[ "/srv/preseed-framework/config.json" := File (txt "{");
     "/srv/preseed-framework/template.cfg" := File node_template ]}.

Definition no_template_files : filesystem :=
  {[ "/srv/preseed-framework/config.json" := File node_document;
     "/srv/preseed-framework/preseed.cfg" := File (txt "stale") ]}.

(** File systems with a directory at the configuration path and with a
    configuration that holds an array. *)
Definition directory_files : filesystem :=
  {[ "/srv/preseed-framework/config.json" := Dir;
     "/srv/preseed-framework/template.cfg" := File node_template ]}.

Definition array_files : filesystem :=
  {[ "/srv/preseed-framework/config.json" := File (txt "[]");
     "/srv/preseed-framework/template.cfg" := File node_template ]}.

(** A template file whose bytes are no text. *)
Definition undecodable_files : filesystem :=
  {[ "/srv/preseed-framework/config.json" := File node_document;
     "/srv/preseed-framework/template.cfg" := Undecodable ]}.

Example replace_doc1 :
  replace (txt "ab") (txt "x") (txt "abcabab") = txt "xcxx".
Proof. reflexivity. Qed.

Example replace_doc2 :
  replace (txt "aa") (txt "b") (txt "aaaaa") = txt "bba".
Proof. reflexivity. Qed.

Example replace_doc3 :
  replace (txt "") (txt "-") (txt "abc") = txt "-a-b-c-".
Proof. reflexivity. Qed.

Example py_str_doc :
  map py_str [JInt 0; JInt (-12); JInt 8080; JBool true; JNull]
  = map txt ["0"; "-12"; "8080"; "True"; "None"]%string.
Proof. reflexivity. Qed.

(** * Properties of the scan *)

Section Scan.

Lemma startswith_spec (p s : text) :
  startswith p s = true ↔ ∃ r, s = p ++ r.
Proof.
  revert s. induction p as [|a p IH]; intros s; simpl.
  - split; [intros _; by exists s | done].
  - destruct s as [|b s].
    + split; [done | intros [r Hr]; discriminate].
    + case_decide as Hab.
      * subst b. rewrite IH. split; intros [r Hr]; exists r; simplify_eq; done.
      * split; [done | intros [r Hr]; simplify_eq].
Qed.

Lemma startswith_app (p r : text) : startswith p (p ++ r) = true.
Proof. apply startswith_spec. by exists r. Qed.

Lemma startswith_false (p s : text) :
  startswith p s = false ↔ ¬ ∃ r, s = p ++ r.
Proof. rewrite <- startswith_spec. by destruct (startswith p s). Qed.

Lemma occurs_spec (p s : text) :
  occurs p s = true ↔ ∃ a b, s = a ++ p ++ b.
Proof.
  induction s as [|c s IH]; simpl.
  - rewrite orb_false_r, startswith_spec. split.
    + intros [r Hr]. by exists [], r.
    + intros (a & b & Hab). destruct a; [by exists b |discriminate].
  - rewrite orb_true_iff, IH, startswith_spec. split.
    + intros [[r Hr] | (a & b & Hab)].
      * by exists [], r.
      * exists (c :: a), b. by rewrite Hab.
    + intros (a & b & Hab). destruct a as [|c' a]; simpl in Hab.
      * left. by exists b.
      * right. exists a, b. by simplify_eq.
Qed.

Lemma occurs_false (p s : text) :
  occurs p s = false ↔ ¬ ∃ a b, s = a ++ p ++ b.
Proof. rewrite <- occurs_spec. by destruct (occurs p s). Qed.

Lemma occurs_cons (p : text) (c : ascii) (s : text) :
  occurs p s = true → occurs p (c :: s) = true.
Proof. intros H. simpl. rewrite H. apply orb_true_r. Qed.

Lemma occurs_app_r (p a s : text) :
  occurs p s = true → occurs p (a ++ s) = true.
Proof. intros H. induction a; [done | by apply occurs_cons]. Qed.

Lemma occurs_app_l (p s b : text) :
  occurs p s = true → occurs p (s ++ b) = true.
Proof.
  rewrite !occurs_spec. intros (a & c & ->).
  exists a, (c ++ b). by rewrite <- !app_assoc.
Qed.

Implicit Types old new s : text.

(** A pending skip drops that many characters. *)
Lemma replace_scan_skip old new (n : nat) s :
  replace_scan old new n s = replace_scan old new 0 (drop n s).
Proof.
  revert s. induction n as [|n IH]; intros s; [done |].
  destruct s as [|c s]; [done |]. simpl. apply IH.
Qed.

(** The scan at an occurrence of [old]. *)
Lemma replace_scan_match old new s :
  old ≠ [] →
  replace_scan old new 0 (old ++ s) = new ++ replace_scan old new 0 s.
Proof.
  intros Hold. destruct old as [|a o]; [done |].
  change ((a :: o) ++ s) with (a :: (o ++ s)).
  cbn [replace_scan].
  change (a :: (o ++ s)) with ((a :: o) ++ s).
  rewrite startswith_app. f_equal.
  rewrite replace_scan_skip. cbn [length].
  replace (S (length o) - 1) with (length o) by lia.
  by rewrite drop_app_length.
Qed.

(** The scan at a position where [old] does not start. *)
Lemma replace_scan_pass old new (c : ascii) s :
  startswith old (c :: s) = false →
  replace_scan old new 0 (c :: s) = c :: replace_scan old new 0 s.
Proof. intros H. cbn [replace_scan]. by rewrite H. Qed.

(** Induction along the scan: either [old] starts here and the scan
    resumes behind it, or one character is passed. *)
Lemma scan_ind old (P : text → Prop) :
  old ≠ [] →
  P [] →
  (∀ s, P s → P (old ++ s)) →
  (∀ c s, startswith old (c :: s) = false → P s → P (c :: s)) →
  ∀ s, P s.
Proof.
  intros Hold Hnil Hmatch Hpass s.
  induction (Nat.lt_wf_0_projected (@length ascii) s) as [s _ IH].
  destruct s as [|c s]; [done |].
  destruct (startswith old (c :: s)) eqn:E.
  - apply startswith_spec in E as [r Hr]. rewrite Hr. apply Hmatch, IH.
    rewrite Hr, length_app. destruct old; [done | simpl; lia].
  - apply Hpass; [done |]. apply IH. simpl. lia.
Qed.

(** Without an occurrence the text is returned as it is. *)
Lemma replace_scan_absent old new s :
  old ≠ [] → occurs old s = false → replace_scan old new 0 s = s.
Proof.
  intros Hold. induction s as [|c s IH]; [done |].
  cbn [occurs]. rewrite orb_false_iff. intros [H1 H2].
  rewrite replace_scan_pass by done. by rewrite IH.
Qed.

(** An occurrence of [old] makes the inserted text appear in the
    result. *)
Lemma replace_scan_inserts old new s :
  old ≠ [] → occurs old s = true → occurs new (replace_scan old new 0 s) = true.
Proof.
  intros Hold. induction s as [s IH] using (well_founded_induction
    (Nat.lt_wf_0_projected (@length ascii))).
  destruct s as [|c s].
  - cbn. rewrite orb_false_r. intros H. apply startswith_spec in H as [r Hr].
    destruct old; [done | discriminate].
  - destruct (startswith old (c :: s)) eqn:E.
    + intros _. apply startswith_spec in E as [r ->].
      rewrite replace_scan_match by done.
      apply occurs_app_l. apply occurs_spec. exists [], []. by rewrite app_nil_r.
    + cbn [occurs]. rewrite E. cbn [orb]. intros H.
      rewrite replace_scan_pass by done. apply occurs_cons, IH; [simpl; lia | done].
Qed.

End Scan.

(** * Placeholders and braces *)

Section Braces.

Implicit Types key id new s r : text.

Lemma brace_free_cons (c : ascii) s :
  brace_free (c :: s) = true ↔ c ≠ lbrace ∧ c ≠ rbrace ∧ brace_free s = true.
Proof.
  unfold brace_free, is_brace. cbn [forallb].
  rewrite andb_true_iff, negb_true_iff, orb_false_iff, !bool_decide_eq_false.
  tauto.
Qed.

Lemma brace_free_app s r :
  brace_free (s ++ r) = true ↔ brace_free s = true ∧ brace_free r = true.
Proof. unfold brace_free. rewrite forallb_app. apply andb_true_iff. Qed.

Lemma placeholder_nonempty key : placeholder key ≠ [].
Proof. done. Qed.

Lemma placeholder_app id r :
  placeholder id ++ r = lbrace :: lbrace :: id ++ rbrace :: rbrace :: r.
Proof. unfold placeholder. cbn [app]. by rewrite <- app_assoc. Qed.

Lemma replace_placeholder key new s :
  replace (placeholder key) new s = replace_scan (placeholder key) new 0 s.
Proof. done. Qed.

(** A text that opens with two braces starts neither at another
    character nor at an opening brace that stands alone. *)
Lemma startswith_open_other (p : text) (c : ascii) s :
  c ≠ lbrace → startswith (lbrace :: lbrace :: p) (c :: s) = false.
Proof.
  intros Hc. cbn [startswith]. rewrite decide_False; [done |]. by intros <-.
Qed.

Lemma startswith_open_single (p : text) s :
  head s ≠ Some lbrace → startswith (lbrace :: lbrace :: p) (lbrace :: s) = false.
Proof.
  intros Hs. cbn [startswith].
  rewrite decide_True by done. destruct s as [|c s]; [done |].
  rewrite decide_False; [done |]. intros <-. by apply Hs.
Qed.

Lemma startswith_placeholder_other key (c : ascii) s :
  c ≠ lbrace → startswith (placeholder key) (c :: s) = false.
Proof. apply startswith_open_other. Qed.

Lemma startswith_placeholder_single key s :
  head s ≠ Some lbrace → startswith (placeholder key) (lbrace :: s) = false.
Proof. apply startswith_open_single. Qed.

(** The first closing brace delimits a brace-free prefix. *)
Lemma brace_free_delimited (x y a b : text) :
  brace_free x = true → brace_free y = true →
  x ++ rbrace :: a = y ++ rbrace :: b → x = y.
Proof.
  revert y. induction x as [|c x IH]; intros [|d y] Hx Hy E; cbn in E.
  - done.
  - injection E as <- _. by apply brace_free_cons in Hy as (_ & ? & _).
  - injection E as -> _. by apply brace_free_cons in Hx as (_ & ? & _).
  - injection E as -> E. f_equal.
    apply brace_free_cons in Hx as (_ & _ & Hx).
    apply brace_free_cons in Hy as (_ & _ & Hy). eauto.
Qed.

(** Where a placeholder of a brace-free identifier stands, only the
    placeholder of that identifier starts. *)
Lemma startswith_placeholder_inv key id r :
  brace_free key = true → brace_free id = true →
  startswith (placeholder key) (placeholder id ++ r) = true → key = id.
Proof.
  intros Hk Hi [q Hq]%startswith_spec. rewrite !placeholder_app in Hq.
  injection Hq as Hq. symmetry. by eapply brace_free_delimited.
Qed.

Lemma head_brace_free_app s (c : ascii) r :
  brace_free s = true → c ≠ lbrace → head (s ++ c :: r) ≠ Some lbrace.
Proof.
  destruct s as [|d s]; cbn [app head].
  - intros _ Hc [=]. done.
  - intros (Hd & _ & _)%brace_free_cons _ [=]. done.
Qed.

(** The scan passes a brace-free stretch unchanged. *)
Lemma replace_scan_brace_free key new s r :
  brace_free s = true →
  replace_scan (placeholder key) new 0 (s ++ r)
  = s ++ replace_scan (placeholder key) new 0 r.
Proof.
  induction s as [|c s IH]; [done |].
  intros (Hc & _ & Hs)%brace_free_cons. cbn [app].
  rewrite replace_scan_pass by by apply startswith_placeholder_other.
  by rewrite IH.
Qed.

(** The scan passes the placeholder of another identifier unchanged. *)
Lemma replace_scan_other key id new r :
  brace_free key = true → brace_free id = true → key ≠ id →
  replace_scan (placeholder key) new 0 (placeholder id ++ r)
  = placeholder id ++ replace_scan (placeholder key) new 0 r.
Proof.
  intros Hk Hi Hne.
  destruct (startswith (placeholder key) (placeholder id ++ r)) eqn:E.
  { by apply startswith_placeholder_inv in E. }
  rewrite !(placeholder_app id) in *.
  rewrite replace_scan_pass by done.
  rewrite replace_scan_pass
    by (apply startswith_placeholder_single, head_brace_free_app; done).
  rewrite replace_scan_brace_free by done.
  by rewrite !replace_scan_pass by by apply startswith_placeholder_other.
Qed.

(** Inside a placeholder of a brace-free identifier no pair of opening
    braces starts, except at its first character. *)
Lemma no_opening_inside id r (n : nat) :
  brace_free id = true →
  0 < n < length (placeholder id) →
  startswith [lbrace; lbrace] (drop n (placeholder id ++ r)) = false.
Proof.
  intros Hi [Hn1 Hn2]. rewrite placeholder_app.
  unfold placeholder in Hn2. cbn [length] in Hn2.
  rewrite length_app in Hn2. cbn [length] in Hn2.
  destruct n as [|[|n]]; [lia | |]; cbn [drop].
  - apply startswith_open_single.
    apply head_brace_free_app; done.
  - assert (Hn : n < length id + 2) by lia. clear Hn1 Hn2.
    revert n Hn. induction id as [|c q IH]; intros n Hn.
    + destruct n as [|[|n]]; [done | done | cbn in Hn; lia].
    + apply brace_free_cons in Hi as (Hc & _ & Hq). destruct n as [|n].
      * by apply startswith_open_other.
      * cbn [app drop]. apply IH; [done |]. cbn in Hn. lia.
Qed.

End Braces.

(** * Well-formed templates *)

Section Tokens.

Implicit Types (key new : text) (toks : list token) (config : items).

Lemma well_formed_cons tok toks :
  well_formed (tok :: toks) = true ↔ token_ok tok = true ∧ well_formed toks = true.
Proof. unfold well_formed. cbn [forallb]. apply andb_true_iff. Qed.

Lemma plain_config_cons k v config :
  plain_config ((k, v) :: config) = true
  ↔ brace_free k = true ∧ brace_free (py_str v) = true ∧ plain_config config = true.
Proof.
  unfold plain_config, plain_item. cbn [forallb fst snd].
  rewrite !andb_true_iff. tauto.
Qed.

Lemma plain_config_key config key :
  plain_config config = true → key ∈ keys config → brace_free key = true.
Proof.
  induction config as [|[k v] config IH]; cbn.
  - intros _ H. by apply elem_of_nil in H.
  - intros (Hk & _ & Hc)%plain_config_cons [->|H]%elem_of_cons; eauto.
Qed.

(** One call of [replace] on a well-formed template replaces exactly the
    tokens of its key. *)
Lemma replace_tokens key new toks :
  brace_free key = true → well_formed toks = true →
  replace (placeholder key) new (template_text toks)
  = template_text (map (subst_token key new) toks).
Proof.
  intros Hk. rewrite replace_placeholder. unfold template_text.
  induction toks as [|[s|id] toks IH]; [done | |];
    intros [Htok Htoks]%well_formed_cons; cbn [map concat token_text subst_token].
  - rewrite replace_scan_brace_free by done. by rewrite IH.
  - case_decide as E.
    + subst id. rewrite replace_scan_match by done. by rewrite IH.
    + rewrite replace_scan_other by done. by rewrite IH.
Qed.

Lemma subst_tokens_well_formed key new toks :
  brace_free new = true → well_formed toks = true →
  well_formed (map (subst_token key new) toks) = true.
Proof.
  intros Hn. induction toks as [|tok toks IH]; [done |].
  intros [Htok Htoks]%well_formed_cons. cbn [map].
  apply well_formed_cons. split; [| by apply IH].
  destruct tok as [s|id]; [done |]. cbn. by case_decide.
Qed.

Lemma resolve_cons k v config tok :
  resolve config (subst_token k (py_str v) tok) = resolve ((k, v) :: config) tok.
Proof.
  destruct tok as [s|id]; [done |]. cbn [subst_token resolve get].
  by case_decide.
Qed.

(** The loop on a well-formed template resolves every token against the
    configuration. *)
Lemma render_tokens config toks :
  plain_config config = true → well_formed toks = true →
  render config (template_text toks) = template_text (map (resolve config) toks).
Proof.
  revert toks. induction config as [|[k v] config IH]; intros toks.
  - intros _ _. cbn. f_equal. induction toks as [|[?|?] ? IHt]; cbn; by f_equal.
  - intros (Hk & Hv & Hc)%plain_config_cons Htoks.
    cbn [render fold_left]. unfold substitute at 2. cbn [fst snd].
    rewrite replace_tokens by done.
    fold (render config (template_text (map (subst_token k (py_str v)) toks))).
    rewrite IH by (try apply subst_tokens_well_formed; done).
    rewrite map_map. f_equal. apply map_ext. intros tok. apply resolve_cons.
Qed.

Lemma get_None config key : get key config = None ↔ key ∉ keys config.
Proof.
  induction config as [|[k v] config IH]; cbn.
  - split; [intros _; apply not_elem_of_nil | done].
  - rewrite not_elem_of_cons. case_decide as E.
    + split; [done | intros [? _]; by subst].
    + rewrite IH. split; [by intros ?; split; [intros ->|] | by intros [_ ?]].
Qed.

Lemma get_plain config key v :
  plain_config config = true → get key config = Some v →
  brace_free (py_str v) = true.
Proof.
  induction config as [|[k w] config IH]; [done |].
  intros (_ & Hw & Hc)%plain_config_cons. cbn. case_decide; [|by eauto].
  by intros [= <-].
Qed.

Lemma resolve_well_formed config toks :
  plain_config config = true → well_formed toks = true →
  well_formed (map (resolve config) toks) = true.
Proof.
  intros Hc. induction toks as [|tok toks IH]; [done |].
  intros [Htok Htoks]%well_formed_cons. cbn [map].
  apply well_formed_cons. split; [| by apply IH].
  destruct tok as [s|id]; [done |]. cbn.
  destruct (get id config) eqn:E; [|done]. cbn. by eapply get_plain.
Qed.

Lemma resolve_no_key config toks key :
  key ∈ keys config → Ph key ∉ map (resolve config) toks.
Proof.
  intros Hk (tok & E & _)%list_elem_of_fmap.
  destruct tok as [s|id]; [done |]. cbn in E.
  destruct (get id config) eqn:G; [done |].
  injection E as ->. by apply get_None in G.
Qed.

(** Deleting the occurrences of a non-empty [old] shortens the text as
    soon as there is one. *)
Lemma replace_scan_delete_length old (s : text) :
  old ≠ [] →
  length (replace_scan old [] 0 s) ≤ length s ∧
  (occurs old s = true → length (replace_scan old [] 0 s) < length s).
Proof.
  intros Hold. revert s. apply (scan_ind old); [done | | |].
  - split; [cbn; lia|]. cbn. rewrite orb_false_r.
    intros [r Hr]%startswith_spec. by destruct old.
  - intros s [IH1 IH2]. rewrite replace_scan_match by done. cbn [app].
    rewrite length_app.
    assert (0 < length old) by (destruct old; [done | cbn; lia]). lia.
  - intros c s E [IH1 IH2]. rewrite replace_scan_pass by done. cbn [length occurs]. rewrite E. cbn [orb].
    split; [lia |]. intros H%IH2. lia.
Qed.

(** In a well-formed template the placeholder of a key occurs only as a
    token. *)
Lemma occurs_template key toks :
  brace_free key = true → well_formed toks = true → Ph key ∉ toks →
  occurs (placeholder key) (template_text toks) = false.
Proof.
  intros Hk Htoks Hnot.
  pose proof (replace_tokens key [] toks Hk Htoks) as E.
  rewrite replace_placeholder in E.
  assert (map (subst_token key []) toks = toks) as Hid.
  { clear E Htoks. induction toks as [|tok toks IH]; [done |].
    apply not_elem_of_cons in Hnot as [H1 H2]. cbn [map]. rewrite IH by done.
    f_equal. destruct tok as [s|id]; [done |]. cbn. case_decide; [|done].
    by subst. }
  rewrite Hid in E.
  destruct (occurs (placeholder key) (template_text toks)) eqn:O; [|done].
  apply (replace_scan_delete_length _ _ (placeholder_nonempty key)) in O.
  rewrite E in O. lia.
Qed.

End Tokens.


(** * The loop *)

Section Loop.

Implicit Types (key id new s : text) (config : items).

Lemma render_app config1 config2 s :
  render (config1 ++ config2) s = render config2 (render config1 s).
Proof. apply fold_left_app. Qed.

Lemma render_cons k v config s :
  render ((k, v) :: config) s = render config (replace (placeholder k) (py_str v) s).
Proof. done. Qed.

(** A call of [replace] for one brace-free key leaves the placeholder of
    another brace-free identifier in the text. *)
Lemma replace_keeps_other key id new s :
  brace_free key = true → brace_free id = true → key ≠ id →
  occurs (placeholder id) s = true →
  occurs (placeholder id) (replace (placeholder key) new s) = true.
Proof.
  intros Hk Hi Hne. rewrite replace_placeholder. revert s.
  apply (scan_ind (placeholder key) (λ s,
    occurs (placeholder id) s = true →
    occurs (placeholder id) (replace_scan (placeholder key) new 0 s) = true));
    [done | intros H; cbn in H; discriminate | |].
  - intros s IH (a & b & E)%occurs_spec.
    rewrite replace_scan_match by done. apply occurs_app_r, IH.
    destruct (decide (length (placeholder key) ≤ length a)) as [Hle|Hgt].
    + apply occurs_spec. exists (drop (length (placeholder key)) a), b.
      apply (f_equal (drop (length (placeholder key)))) in E.
      rewrite drop_app_length in E. rewrite E.
      rewrite drop_app_le by done. done.
    + exfalso. apply (f_equal (drop (length a))) in E.
      rewrite (drop_app_length a) in E.
      destruct (decide (length a = 0)) as [H0|H0].
      * destruct a; [|done]. cbn [drop length] in E.
        assert (startswith (placeholder id) (placeholder key ++ s) = true) as H
          by (apply startswith_spec; eauto).
        apply startswith_placeholder_inv in H; done.
      * pose proof (no_opening_inside key s (length a) Hk) as H.
        rewrite E in H. rewrite placeholder_app in H.
        discriminate H. lia.
  - intros c s Hc IH Hocc.
    destruct (startswith (placeholder id) (c :: s)) eqn:Hs.
    + apply startswith_spec in Hs as [r ->].
      rewrite replace_scan_other by done.
      apply occurs_app_l, occurs_spec. exists [], []. by rewrite app_nil_r.
    + rewrite replace_scan_pass by done. apply occurs_cons, IH.
      cbn [occurs] in Hocc. by rewrite Hs in Hocc.
Qed.

(** Under unique keys, [get] finds exactly the pairs of the list. *)
Lemma get_Some config key v :
  NoDup (keys config) → get key config = Some v ↔ (key, v) ∈ config.
Proof.
  induction config as [|[k w] config IH]; cbn.
  - intros _. split; [done | by intros ?%elem_of_nil].
  - intros [Hk Hnd]%NoDup_cons. rewrite elem_of_cons. case_decide as E.
    + subst k. split.
      * intros [= ->]. by left.
      * intros [[= ->]|Hin]; [done |]. exfalso. apply Hk.
        apply list_elem_of_fmap. by exists (key, v).
    + rewrite IH by done. split; [by right |].
      intros [[= -> ->]|Hin]; done.
Qed.

Lemma get_Permutation config1 config2 key :
  NoDup (keys config1) → config1 ≡ₚ config2 →
  get key config1 = get key config2.
Proof.
  intros Hnd Hp.
  assert (NoDup (keys config2)) as Hnd2.
  { unfold keys in *. by rewrite <- Hp. }
  destruct (get key config1) as [v|] eqn:E1.
  - symmetry. apply get_Some; [done |]. rewrite <- Hp. by apply get_Some.
  - destruct (get key config2) as [v|] eqn:E2; [|done].
    apply get_Some in E2; [|done]. rewrite <- Hp in E2.
    apply get_Some in E2; [|done]. congruence.
Qed.

Lemma occurs_trans (a b c : text) :
  occurs a b = true → occurs b c = true → occurs a c = true.
Proof.
  rewrite !occurs_spec. intros (p & q & ->) (p' & q' & ->).
  exists (p' ++ p), (q ++ q'). by rewrite <- !app_assoc.
Qed.

(** The loop over brace-free keys leaves the placeholder of a brace-free
    identifier that is none of them in the content. *)
Lemma render_keeps_placeholder config id s :
  forallb brace_free (keys config) = true → brace_free id = true →
  id ∉ keys config →
  occurs (placeholder id) s = true →
  occurs (placeholder id) (render config s) = true.
Proof.
  revert s. induction config as [|[k v] config IH]; intros s; [done |].
  cbn [keys fmap list_fmap forallb fst].
  intros [Hk Hks]%andb_true_iff Hid [Hne Hnot]%not_elem_of_cons Hocc.
  rewrite render_cons. apply IH; [done .. |].
  by apply replace_keeps_other.
Qed.

End Loop.

(** * The properties of the specification: rendering *)

(** C7.  A template in which the placeholder of no key of the mapping
    occurs is rendered as it is. *)
Theorem render_without_placeholders (config : items) (template : text) :
  mentions config template = false →
  render config template = template.
Proof.
  unfold mentions. induction config as [|[k v] config IH]; [done |].
  cbn [keys fmap list_fmap existsb fst]. intros [Hk Hrest]%orb_false_iff.
  rewrite render_cons, replace_placeholder.
  rewrite replace_scan_absent by done. by apply IH.
Qed.

Lemma render_without_placeholders_witness :
  mentions node_config (txt "d-i debian-installer/locale string en_US") = false ∧
  render node_config (txt "d-i debian-installer/locale string en_US")
  = txt "d-i debian-installer/locale string en_US".
Proof.
  split; [reflexivity |].
  apply (render_without_placeholders node_config). reflexivity.
Defined.

(** C8.  The example of the specification: hostname and port are
    substituted, the placeholder of the absent key debug stays. *)
Theorem render_node_example :
  render node_config node_template = txt "host=node1 port=8080 debug={{debug}}".
Proof. reflexivity. Qed.

(** C10.  Values are turned into text by [str], not rendered as JSON: a
    key whose value is true is replaced by True, false by False and null
    by None, in any content and for any key. *)
Theorem booleans_and_null_as_python (key content : text) :
  substitute content (key, JBool true) = replace (placeholder key) (txt "True") content ∧
  substitute content (key, JBool false) = replace (placeholder key) (txt "False") content ∧
  substitute content (key, JNull) = replace (placeholder key) (txt "None") content ∧
  render [(key, JBool true)] (placeholder key) = txt "True" ∧
  render [(key, JBool false)] (placeholder key) = txt "False" ∧
  render [(key, JNull)] (placeholder key) = txt "None".
Proof.
  assert (∀ v, render [(key, v)] (placeholder key) = py_str v) as H.
  { intros v. rewrite render_cons, replace_placeholder.
    rewrite <- (app_nil_r (placeholder key)) at 2.
    rewrite replace_scan_match by done. apply app_nil_r. }
  repeat split; try done; apply H.
Qed.

(** C1, as the claim states it, fails: with the items "name" then
    "greeting", the value of "greeting" brings the placeholder of "name"
    back after the turn of "name" has passed. *)
Lemma key_placeholder_can_remain :
  txt "name" ∈ keys name_then_greeting ∧
  occurs (placeholder (txt "name")) (txt "{{greeting}}, {{name}}") = true ∧
  render name_then_greeting (txt "{{greeting}}, {{name}}") = txt "hello {{name}}, bob" ∧
  occurs (placeholder (txt "name"))
    (render name_then_greeting (txt "{{greeting}}, {{name}}")) = true.
Proof. split; [by left | done]. Qed.

(** C1, amended.  When no key and no value text has a brace and the
    braces of the template are those of its placeholders, every
    placeholder token of a key is replaced by the text of the key's value
    and the output has no occurrence of the placeholder of any key. *)
Theorem key_placeholders_replaced (config : items) (toks : list token) (key : text) :
  plain_config config = true →
  well_formed toks = true →
  key ∈ keys config →
  render config (template_text toks) = template_text (map (resolve config) toks) ∧
  occurs (placeholder key) (render config (template_text toks)) = false.
Proof.
  intros Hc Ht Hk. rewrite render_tokens by done. split; [done |].
  apply occurs_template.
  - by eapply plain_config_key.
  - by apply resolve_well_formed.
  - by apply resolve_no_key.
Qed.

Lemma key_placeholders_replaced_witness :
  plain_config node_config = true ∧
  well_formed node_tokens = true ∧
  txt "port" ∈ keys node_config ∧
  render node_config (template_text node_tokens)
  = template_text (map (resolve node_config) node_tokens) ∧
  occurs (placeholder (txt "port")) (render node_config (template_text node_tokens)) = false.
Proof.
  assert (txt "port" ∈ keys node_config) as Hk by (right; left).
  split; [reflexivity |]. split; [reflexivity |]. split; [exact Hk |].
  apply (key_placeholders_replaced node_config node_tokens (txt "port"));
    [reflexivity | reflexivity | exact Hk].
Defined.

(** The hypotheses on values and template are both needed: a value that
    is its own key between doubled braces, and an empty value that closes
    up the braces around it, leave the placeholder of a key in the
    output. *)
Example doubled_braces_remain :
  render [(txt "a", JString (txt "a"))] (txt "{{{{a}}}}") = txt "{{a}}".
Proof. reflexivity. Qed.

Example empty_value_joins :
  render [(txt "k", JString (txt "v")); (txt "x", JString (txt ""))]
    (txt "{{k}} {{{{x}}k}}") = txt "v {{k}}".
Proof. reflexivity. Qed.

(** C2, as the claim states it, fails: with the items "greeting" then
    "name", the placeholder of "name" that the value of "greeting" brings
    in is substituted at the turn of "name". *)
Lemma exposed_placeholder_substituted :
  occurs (placeholder (txt "name")) (py_str (JString (txt "hello {{name}}"))) = true ∧
  render greeting_then_name (txt "{{greeting}}") = txt "hello bob" ∧
  occurs (placeholder (txt "name"))
    (render greeting_then_name (txt "{{greeting}}")) = false.
Proof. done. Qed.

(** C2, amended.  Cascading goes forward only.  First, for every
    mapping and template: when the placeholder of a key is in the content
    at the turn of the key and the text of its value contains the
    placeholder of an identifier without braces that is no key of a later
    turn (the key itself, a key of an earlier turn or no key), the keys of
    the later turns having no brace, that placeholder is in the output: it
    is never substituted.  Second, the text put in for the last key is not
    scanned again: on a template whose braces are those of its
    placeholders, with earlier keys and values and the last key without
    braces, the output is the template with the earlier keys resolved and
    every placeholder of the last key replaced by the text of its value
    as it is, whatever that text contains. *)
Theorem cascade_forward_only :
  (∀ (config1 config2 : items) (key : text) (v : value) (template id : text),
     forallb brace_free (keys config2) = true →
     brace_free id = true →
     id ∉ keys config2 →
     occurs (placeholder key) (render config1 template) = true →
     occurs (placeholder id) (py_str v) = true →
     occurs (placeholder id)
       (render (config1 ++ (key, v) :: config2) template) = true) ∧
  (∀ (config : items) (key : text) (v : value) (toks : list token),
     plain_config config = true →
     brace_free key = true →
     well_formed toks = true →
     render (config ++ [(key, v)]) (template_text toks)
     = template_text (map (subst_token key (py_str v)) (map (resolve config) toks))).
Proof.
  split.
  - intros config1 config2 key v template id Hks Hid Hnot Hkey Hexp.
    rewrite render_app, render_cons.
    apply render_keeps_placeholder; [done .. |].
    apply (occurs_trans _ (py_str v)); [done |].
    rewrite replace_placeholder. by apply replace_scan_inserts.
  - intros config key v toks Hc Hk Ht.
    rewrite render_app, render_tokens by done.
    rewrite render_cons. cbn [render fold_left].
    apply replace_tokens; [done |]. by apply resolve_well_formed.
Qed.

Lemma cascade_forward_only_witness :
  (forallb brace_free (keys [(txt "port", JInt 8080)]) = true ∧
   brace_free (txt "name") = true ∧
   (txt "name" ∉ keys [(txt "port", JInt 8080)]) ∧
   occurs (placeholder (txt "greeting"))
     (render [(txt "name", JString (txt "bob"))] (txt "{{greeting}}, {{name}}"))
   = true ∧
   occurs (placeholder (txt "name")) (py_str (JString (txt "hello {{name}}")))
   = true ∧
   occurs (placeholder (txt "name"))
     (render ([(txt "name", JString (txt "bob"))]
              ++ (txt "greeting", JString (txt "hello {{name}}"))
                 :: [(txt "port", JInt 8080)])
        (txt "{{greeting}}, {{name}}")) = true) ∧
  (plain_config [(txt "name", JString (txt "bob"))] = true ∧
   brace_free (txt "greeting") = true ∧
   well_formed [Ph (txt "greeting"); Lit (txt ", "); Ph (txt "name")] = true ∧
   render ([(txt "name", JString (txt "bob"))]
           ++ [(txt "greeting", JString (txt "hello {{name}} and {{greeting}}"))])
     (template_text [Ph (txt "greeting"); Lit (txt ", "); Ph (txt "name")])
   = template_text
       (map (subst_token (txt "greeting")
               (py_str (JString (txt "hello {{name}} and {{greeting}}"))))
          (map (resolve [(txt "name", JString (txt "bob"))])
             [Ph (txt "greeting"); Lit (txt ", "); Ph (txt "name")]))).
Proof.
  assert (txt "name" ∉ keys [(txt "port", JInt 8080)]) as Hnot.
  { intros H. apply elem_of_cons in H as [E|H]; [discriminate E |].
    by apply elem_of_nil in H. }
  destruct cascade_forward_only as [Hsurvive Hlast].
  split.
  - split; [reflexivity |]. split; [reflexivity |]. split; [exact Hnot |].
    split; [reflexivity |]. split; [reflexivity |].
    apply (Hsurvive [(txt "name", JString (txt "bob"))] [(txt "port", JInt 8080)]
             (txt "greeting") (JString (txt "hello {{name}}"))
             (txt "{{greeting}}, {{name}}") (txt "name"));
      [reflexivity | reflexivity | exact Hnot | reflexivity | reflexivity].
  - split; [reflexivity |]. split; [reflexivity |]. split; [reflexivity |].
    apply (Hlast [(txt "name", JString (txt "bob"))] (txt "greeting")
             (JString (txt "hello {{name}} and {{greeting}}"))
             [Ph (txt "greeting"); Lit (txt ", "); Ph (txt "name")]);
      reflexivity.
Defined.

(** The output of that last run: both placeholders of the value are in
    it as they were written. *)
Example last_value_verbatim :
  render ([(txt "name", JString (txt "bob"))]
          ++ [(txt "greeting", JString (txt "hello {{name}} and {{greeting}}"))])
    (txt "{{greeting}}, {{name}}")
  = txt "hello {{name}} and {{greeting}}, bob".
Proof. reflexivity. Qed.

(** C3, as the claim states it, fails: no value of the two items contains
    a placeholder, and yet the two iteration orders render the nested
    template differently. *)
Lemma order_can_matter :
  ab_then_c ≡ₚ c_then_ab ∧
  exposes ab_then_c = false ∧
  render ab_then_c nested_template = txt "{{ab}}" ∧
  render c_then_ab nested_template = txt "X" ∧
  render ab_then_c nested_template ≠ render c_then_ab nested_template.
Proof. split; [apply perm_swap | done]. Qed.

(** C3, amended.  When no key and no value text has a brace and the
    braces of the template are those of its placeholders, the output is
    the same for every iteration order of the mapping. *)
Theorem order_irrelevant (config1 config2 : items) (toks : list token) :
  NoDup (keys config1) →
  config1 ≡ₚ config2 →
  plain_config config1 = true →
  well_formed toks = true →
  render config1 (template_text toks) = render config2 (template_text toks).
Proof.
  intros Hnd Hp Hc1 Ht.
  assert (plain_config config2 = true) as Hc2.
  { unfold plain_config in *. rewrite forallb_forall in *.
    intros kv Hin. apply Hc1. apply list_elem_of_In. rewrite Hp.
    by apply list_elem_of_In. }
  rewrite !render_tokens by done. f_equal. apply map_ext.
  intros [s|id]; [done |]. cbn [resolve].
  by rewrite (get_Permutation config1 config2).
Qed.

Lemma order_irrelevant_witness :
  NoDup (keys ab_then_c) ∧
  ab_then_c ≡ₚ c_then_ab ∧
  plain_config ab_then_c = true ∧
  well_formed [Ph (txt "ab"); Lit (txt " "); Ph (txt "c")] = true ∧
  render ab_then_c (template_text [Ph (txt "ab"); Lit (txt " "); Ph (txt "c")])
  = render c_then_ab (template_text [Ph (txt "ab"); Lit (txt " "); Ph (txt "c")]).
Proof.
  assert (NoDup (keys ab_then_c)) as Hnd.
  { apply (bool_decide_unpack _). vm_compute. exact I. }
  split; [exact Hnd |]. split; [apply perm_swap |].
  split; [reflexivity |]. split; [reflexivity |].
  apply (order_irrelevant ab_then_c c_then_ab
           [Ph (txt "ab"); Lit (txt " "); Ph (txt "c")]);
    [exact Hnd | apply perm_swap | reflexivity | reflexivity].
Defined.

(** C6, as the claim states it, fails: neither "host" nor "port" is a key
    of the mapping, and the placeholders of both vanish from the output,
    because the one key of the mapping spans them. *)
Lemma unmatched_placeholder_can_vanish :
  (txt "host" ∉ keys spanning_config) ∧
  occurs (placeholder (txt "host")) host_port_template = true ∧
  render spanning_config host_port_template = txt "localhost:80" ∧
  occurs (placeholder (txt "host")) (render spanning_config host_port_template) = false.
Proof.
  split; [|done]. intros [E|H]%elem_of_cons; [discriminate E | by apply elem_of_nil in H].
Qed.

(** C6, amended.  When no key of the mapping has a brace, a placeholder
    of the template whose identifier has no brace and is not a key of the
    mapping is in the output as well, for every template and all
    values. *)
Theorem unmatched_placeholder_kept (config : items) (template id : text) :
  forallb brace_free (keys config) = true →
  brace_free id = true →
  id ∉ keys config →
  occurs (placeholder id) template = true →
  occurs (placeholder id) (render config template) = true.
Proof.
  revert template. induction config as [|[k v] config IH]; intros template; [done |].
  cbn [keys fmap list_fmap forallb fst].
  intros [Hk Hks]%andb_true_iff Hid [Hne Hnot]%not_elem_of_cons Hocc.
  rewrite render_cons. apply IH; [done .. |].
  apply replace_keeps_other; done.
Qed.

Lemma unmatched_placeholder_kept_witness :
  forallb brace_free (keys node_config) = true ∧
  brace_free (txt "debug") = true ∧
  (txt "debug" ∉ keys node_config) ∧
  occurs (placeholder (txt "debug")) node_template = true ∧
  occurs (placeholder (txt "debug")) (render node_config node_template) = true.
Proof.
  assert (txt "debug" ∉ keys node_config) as Hnot.
  { intros H. apply elem_of_cons in H as [E|H]; [discriminate E |].
    apply elem_of_cons in H as [E|H]; [discriminate E |].
    by apply elem_of_nil in H. }
  split; [reflexivity |]. split; [reflexivity |]. split; [exact Hnot |].
  split; [reflexivity |].
  apply (unmatched_placeholder_kept node_config node_template (txt "debug"));
    [reflexivity | reflexivity | exact Hnot | reflexivity].
Defined.

(** * The properties of the specification: the run *)

Example main_example :
  main example_script example_load example_files
  = {| status := None;
       stdout := [txt "Generated /srv/preseed-framework/preseed.cfg"];
       files := <["/srv/preseed-framework/preseed.cfg" :=
                    File (txt "host=node1 port=8080 debug={{debug}}")]> example_files |}.
Proof. by vm_compute. Qed.

Section Run.

Variable script : Path.
Variable json_load : text → result document.

Implicit Types fs : filesystem.

Lemma config_path_not_output :
  path_str (CONFIG_PATH script) ≠ path_str (OUTPUT_PATH script).
Proof. unfold path_str. cbn. intros E. by apply (inj (String.app _)) in E. Qed.

Lemma template_path_not_output :
  path_str (TEMPLATE_PATH script) ≠ path_str (OUTPUT_PATH script).
Proof. unfold path_str. cbn. intros E. by apply (inj (String.app _)) in E. Qed.

Lemma path_exists_false fs p : path_exists fs p = false ↔ fs !! path_str p = None.
Proof.
  unfold path_exists. rewrite bool_decide_eq_false, <- eq_None_not_Some. done.
Qed.

(** The message of a missing file names its path. *)
Lemma not_found_names what p : occurs (txt (path_str p)) (not_found what p) = true.
Proof.
  apply occurs_spec. exists (txt what ++ txt " file "), (txt " not found").
  unfold not_found. by rewrite <- !app_assoc.
Qed.

(** The runs in which [main] returns. *)
Lemma main_body_Ok fs fs' out :
  main_body script json_load fs = Ok (fs', out) ↔
  ∃ ctext ttext config,
    fs !! path_str (CONFIG_PATH script) = Some (File ctext) ∧
    fs !! path_str (TEMPLATE_PATH script) = Some (File ttext) ∧
    json_load ctext = Ok (JObject config) ∧
    fs !! path_str (OUTPUT_PATH script) ≠ Some Dir ∧
    fs' = <[path_str (OUTPUT_PATH script) := File (render config ttext)]> fs ∧
    out = [generated (OUTPUT_PATH script)].
Proof.
  unfold main_body, path_exists, read_text, write_text.
  split.
  - destruct (fs !! path_str (CONFIG_PATH script)) as [[ctext| |]|] eqn:EC;
      cbn; try done.
    all: destruct (fs !! path_str (TEMPLATE_PATH script)) as [[ttext| |]|] eqn:ET;
      cbn; try done.
    all: try (destruct (json_load _) as [[config|]|]; by cbn).
    destruct (json_load ctext) as [[config|]|] eqn:EJ; cbn; try done.
    destruct (fs !! path_str (OUTPUT_PATH script)) as [[old| |]|] eqn:EO;
      cbn; try done.
    all: intros [= <- <-]; exists ctext, ttext, config; by rewrite ?EO.
  - intros (ctext & ttext & config & -> & -> & EJ & EO & -> & ->). cbn.
    rewrite EJ. cbn.
    by destruct (fs !! path_str (OUTPUT_PATH script)) as [[old| |]|].
Qed.

Lemma main_status_None fs :
  status (main script json_load fs) = None ↔
  ∃ fs' out, main_body script json_load fs = Ok (fs', out).
Proof.
  unfold main. destruct (main_body script json_load fs) as [[fs' out]|e]; cbn.
  - split; [by eauto | done].
  - split; [done | by intros (? & ? & ?)].
Qed.

(** The two existence checks at the head of [main]. *)
Lemma main_body_no_config fs :
  fs !! path_str (CONFIG_PATH script) = None →
  main_body script json_load fs
  = Raise (SystemExit (not_found "Config" (CONFIG_PATH script))).
Proof.
  intros H%path_exists_false. unfold main_body. by rewrite H.
Qed.

Lemma main_body_no_template fs :
  fs !! path_str (CONFIG_PATH script) ≠ None →
  fs !! path_str (TEMPLATE_PATH script) = None →
  main_body script json_load fs
  = Raise (SystemExit (not_found "Template" (TEMPLATE_PATH script))).
Proof.
  intros HC HT%path_exists_false. unfold main_body. rewrite HT.
  destruct (path_exists fs (CONFIG_PATH script)) eqn:E; [done |].
  by apply path_exists_false in E.
Qed.

(** C4.  When the configuration file or the template file does not
    exist, the run ends in a [SystemExit] whose message names the path of
    a missing file, it prints nothing and leaves every file, the output
    file included, as it was. *)
Theorem missing_input_fatal fs :
  fs !! path_str (CONFIG_PATH script) = None ∨
  fs !! path_str (TEMPLATE_PATH script) = None →
  ∃ p message,
    (p = CONFIG_PATH script ∨ p = TEMPLATE_PATH script) ∧
    fs !! path_str p = None ∧
    status (main script json_load fs) = Some (SystemExit message) ∧
    occurs (txt (path_str p)) message = true ∧
    exit_code (main script json_load fs) = 1%Z ∧
    stdout (main script json_load fs) = [] ∧
    files (main script json_load fs) = fs.
Proof.
  intros H.
  destruct (fs !! path_str (CONFIG_PATH script)) as [n|] eqn:EC.
  - destruct H as [H|H]; [done |].
    exists (TEMPLATE_PATH script), (not_found "Template" (TEMPLATE_PATH script)).
    unfold exit_code, main. rewrite main_body_no_template by (done || by rewrite EC).
    split_and!; auto using not_found_names.
  - exists (CONFIG_PATH script), (not_found "Config" (CONFIG_PATH script)).
    unfold exit_code, main. rewrite main_body_no_config by done.
    split_and!; auto using not_found_names.
Qed.


(** C9.  A run in which [main] returns changes the file system in one
    place: the output path, the sibling preseed.cfg of the script, holds
    the rendered text, whatever was there before; the configuration file,
    the template file and every other path are as they were. *)
Theorem successful_run_writes_output_only fs :
  status (main script json_load fs) = None →
  ∃ ctext ttext config,
    fs !! path_str (CONFIG_PATH script) = Some (File ctext) ∧
    fs !! path_str (TEMPLATE_PATH script) = Some (File ttext) ∧
    json_load ctext = Ok (JObject config) ∧
    OUTPUT_PATH script = with_name script "preseed.cfg" ∧
    files (main script json_load fs)
    = <[path_str (OUTPUT_PATH script) := File (render config ttext)]> fs ∧
    files (main script json_load fs) !! path_str (OUTPUT_PATH script)
    = Some (File (render config ttext)) ∧
    files (main script json_load fs) !! path_str (CONFIG_PATH script)
    = Some (File ctext) ∧
    files (main script json_load fs) !! path_str (TEMPLATE_PATH script)
    = Some (File ttext) ∧
    (∀ p, p ≠ path_str (OUTPUT_PATH script) →
          files (main script json_load fs) !! p = fs !! p).
Proof.
  intros (fs' & out & E)%main_status_None. unfold main. rewrite E. cbn.
  apply main_body_Ok in E as (c & t & cfg & EC & ET & EJ & _ & -> & _).
  exists c, t, cfg. split_and!; try done.
  - apply lookup_insert_eq.
  - rewrite lookup_insert_ne; [done |]. apply not_eq_sym, config_path_not_output.
  - rewrite lookup_insert_ne; [done |]. apply not_eq_sym, template_path_not_output.
  - intros p Hp. by rewrite lookup_insert_ne.
Qed.

End Run.

Lemma missing_input_fatal_witness :
  (no_template_files !! path_str (CONFIG_PATH example_script) = None ∨
   no_template_files !! path_str (TEMPLATE_PATH example_script) = None) ∧
  ∃ p message,
    (p = CONFIG_PATH example_script ∨ p = TEMPLATE_PATH example_script) ∧
    no_template_files !! path_str p = None ∧
    status (main example_script example_load no_template_files)
    = Some (SystemExit message) ∧
    occurs (txt (path_str p)) message = true ∧
    exit_code (main example_script example_load no_template_files) = 1%Z ∧
    stdout (main example_script example_load no_template_files) = [] ∧
    files (main example_script example_load no_template_files) = no_template_files.
Proof.
  assert (no_template_files !! path_str (CONFIG_PATH example_script) = None ∨
          no_template_files !! path_str (TEMPLATE_PATH example_script) = None) as H.
  { right. vm_compute. reflexivity. }
  split; [exact H |].
  apply (missing_input_fatal example_script example_load no_template_files H).
Defined.



Lemma successful_run_writes_output_only_witness :
  status (main example_script example_load example_files) = None ∧
  ∃ ctext ttext config,
    example_files !! path_str (CONFIG_PATH example_script) = Some (File ctext) ∧
    example_files !! path_str (TEMPLATE_PATH example_script) = Some (File ttext) ∧
    example_load ctext = Ok (JObject config) ∧
    OUTPUT_PATH example_script = with_name example_script "preseed.cfg" ∧
    files (main example_script example_load example_files)
    = <[path_str (OUTPUT_PATH example_script) := File (render config ttext)]>
        example_files ∧
    files (main example_script example_load example_files)
      !! path_str (OUTPUT_PATH example_script)
    = Some (File (render config ttext)) ∧
    files (main example_script example_load example_files)
      !! path_str (CONFIG_PATH example_script)
    = Some (File ctext) ∧
    files (main example_script example_load example_files)
      !! path_str (TEMPLATE_PATH example_script)
    = Some (File ttext) ∧
    (∀ p, p ≠ path_str (OUTPUT_PATH example_script) →
          files (main example_script example_load example_files) !! p
          = example_files !! p).
Proof.
  assert (status (main example_script example_load example_files) = None) as H.
  { vm_compute. reflexivity. }
  split; [exact H |].
  apply (successful_run_writes_output_only example_script example_load example_files H).
Defined.

(** * Further properties of the loop *)

Section LoopFacts.

Implicit Types (key id new s : text) (config : items) (toks : list token).

(** Replacing a text by itself changes nothing. *)
Lemma replace_scan_same old s :
  old ≠ [] → replace_scan old old 0 s = s.
Proof.
  intros Hold. revert s.
  apply (scan_ind old (λ s, replace_scan old old 0 s = s)); [done | done | |].
  - intros s IH. rewrite replace_scan_match by done. by rewrite IH.
  - intros c s E IH. rewrite replace_scan_pass by done. by rewrite IH.
Qed.

Lemma template_text_app toks1 toks2 :
  template_text (toks1 ++ toks2) = template_text toks1 ++ template_text toks2.
Proof. unfold template_text. by rewrite map_app, concat_app. Qed.

Lemma well_formed_app toks1 toks2 :
  well_formed (toks1 ++ toks2) = true
  ↔ well_formed toks1 = true ∧ well_formed toks2 = true.
Proof. unfold well_formed. rewrite forallb_app. apply andb_true_iff. Qed.

Lemma resolve_resolve config tok :
  resolve config (resolve config tok) = resolve config tok.
Proof.
  destruct tok as [s|id]; [done |]. cbn.
  destruct (get id config) eqn:E; [done |]. cbn. by rewrite E.
Qed.

Lemma get_app_other config1 config2 k v id :
  id ≠ k → get id (config1 ++ (k, v) :: config2) = get id (config1 ++ config2).
Proof.
  intros Hne. induction config1 as [|[k' v'] config1 IH]; cbn.
  - by rewrite decide_False.
  - by rewrite IH.
Qed.

Lemma brace_free_digits d : brace_free (txt (NilEmpty.string_of_uint d)) = true.
Proof. induction d; cbn; done. Qed.

End LoopFacts.

(** X1.  A key whose value is the text of its own placeholder changes
    nothing: the iteration for that key returns the content as it is. *)
Theorem self_placeholder_unchanged (key : text) (v : value) (content : text) :
  py_str v = placeholder key →
  substitute content (key, v) = content.
Proof.
  intros E. unfold substitute. cbn [fst snd]. rewrite E, replace_placeholder.
  by apply replace_scan_same.
Qed.

Lemma self_placeholder_unchanged_witness :
  py_str (JString (txt "{{name}}")) = placeholder (txt "name") ∧
  substitute (txt "hello {{name}}, {{name}}!") (txt "name", JString (txt "{{name}}"))
  = txt "hello {{name}}, {{name}}!".
Proof.
  split; [reflexivity |].
  apply (self_placeholder_unchanged (txt "name") (JString (txt "{{name}}"))).
  reflexivity.
Defined.

(** X2.  One iteration works from left to right and does not look at what
    it has put in: text without braces in front of the placeholder of the
    key is kept, the placeholder becomes the text of the value, and the
    rest is treated on its own, for every key and every value. *)
Theorem substitute_first_placeholder (key : text) (v : value) (before rest : text) :
  brace_free before = true →
  substitute (before ++ placeholder key ++ rest) (key, v)
  = before ++ py_str v ++ substitute rest (key, v).
Proof.
  intros Hb. unfold substitute. cbn [fst snd]. rewrite !replace_placeholder.
  rewrite replace_scan_brace_free by done.
  by rewrite replace_scan_match by done.
Qed.

Lemma substitute_first_placeholder_witness :
  brace_free (txt "d-i passwd/username string ") = true ∧
  substitute (txt "d-i passwd/username string " ++ placeholder (txt "user")
              ++ txt " # {{user}}")
    (txt "user", JString (txt "{{user}}-admin"))
  = txt "d-i passwd/username string " ++ py_str (JString (txt "{{user}}-admin"))
    ++ substitute (txt " # {{user}}") (txt "user", JString (txt "{{user}}-admin")).
Proof.
  split; [reflexivity |].
  apply (substitute_first_placeholder (txt "user") (JString (txt "{{user}}-admin"))).
  reflexivity.
Defined.

(** X3.  The text of an integer, of a boolean and of null has no
    brace. *)
Theorem scalar_text_brace_free (z : Z) (b : bool) :
  brace_free (py_str (JInt z)) = true ∧
  brace_free (py_str (JBool b)) = true ∧
  brace_free (py_str JNull) = true.
Proof.
  split_and!; [| by destruct b | done].
  unfold py_str, NilZero.string_of_int, NilZero.string_of_uint.
  destruct (Z.to_int z) as [d|d]; destruct d; try done;
    cbn; apply brace_free_digits.
Qed.

(** X4.  On a template whose braces are those of its placeholders, with
    keys and value texts without braces, rendering the output once more
    changes nothing. *)
Theorem render_idempotent (config : items) (toks : list token) :
  plain_config config = true →
  well_formed toks = true →
  render config (render config (template_text toks))
  = render config (template_text toks).
Proof.
  intros Hc Ht. rewrite (render_tokens config toks) by done.
  rewrite render_tokens by (try apply resolve_well_formed; done).
  rewrite map_map. f_equal. apply map_ext. intros tok. apply resolve_resolve.
Qed.

Lemma render_idempotent_witness :
  plain_config node_config = true ∧
  well_formed node_tokens = true ∧
  render node_config (render node_config (template_text node_tokens))
  = render node_config (template_text node_tokens).
Proof.
  split; [reflexivity |]. split; [reflexivity |].
  apply (render_idempotent node_config node_tokens); reflexivity.
Defined.

(** X5.  On such templates rendering goes part by part: the output for
    two templates put together is the two outputs put together. *)
Theorem render_concatenation (config : items) (toks1 toks2 : list token) :
  plain_config config = true →
  well_formed toks1 = true →
  well_formed toks2 = true →
  render config (template_text (toks1 ++ toks2))
  = render config (template_text toks1) ++ render config (template_text toks2).
Proof.
  intros Hc H1 H2.
  rewrite !render_tokens by (try apply well_formed_app; done).
  by rewrite map_app, template_text_app.
Qed.

Lemma render_concatenation_witness :
  plain_config node_config = true ∧
  well_formed [Lit (txt "host="); Ph (txt "hostname")] = true ∧
  well_formed [Lit (txt " port="); Ph (txt "port")] = true ∧
  render node_config
    (template_text ([Lit (txt "host="); Ph (txt "hostname")]
                    ++ [Lit (txt " port="); Ph (txt "port")]))
  = render node_config (template_text [Lit (txt "host="); Ph (txt "hostname")])
    ++ render node_config (template_text [Lit (txt " port="); Ph (txt "port")]).
Proof.
  split; [reflexivity |]. split; [reflexivity |]. split; [reflexivity |].
  apply (render_concatenation node_config); reflexivity.
Defined.

(** X6.  On such templates a key that the template does not use does not
    matter: the output is the same without its item, wherever the item
    stands in the iteration order. *)
Theorem unused_key_irrelevant
    (config1 config2 : items) (key : text) (v : value) (toks : list token) :
  plain_config (config1 ++ (key, v) :: config2) = true →
  well_formed toks = true →
  Ph key ∉ toks →
  render (config1 ++ (key, v) :: config2) (template_text toks)
  = render (config1 ++ config2) (template_text toks).
Proof.
  intros Hc Ht Hnot.
  assert (plain_config (config1 ++ config2) = true) as Hc'.
  { unfold plain_config in *. rewrite forallb_app in *. cbn [forallb] in Hc.
    apply andb_true_iff in Hc as [H1 [_ H2]%andb_true_iff].
    by rewrite H1, H2. }
  rewrite !render_tokens by done. f_equal.
  apply map_ext_in. intros [s|id] Hin; [done |]. cbn [resolve].
  rewrite get_app_other; [done |]. intros ->.
  by apply Hnot, list_elem_of_In.
Qed.

Lemma unused_key_irrelevant_witness :
  plain_config ([(txt "hostname", JString (txt "node1"))]
                ++ (txt "port", JInt 8080) :: []) = true ∧
  well_formed [Lit (txt "host="); Ph (txt "hostname")] = true ∧
  (Ph (txt "port") ∉ [Lit (txt "host="); Ph (txt "hostname")]) ∧
  render ([(txt "hostname", JString (txt "node1"))]
          ++ (txt "port", JInt 8080) :: [])
    (template_text [Lit (txt "host="); Ph (txt "hostname")])
  = render ([(txt "hostname", JString (txt "node1"))] ++ [])
      (template_text [Lit (txt "host="); Ph (txt "hostname")]).
Proof.
  assert (Ph (txt "port") ∉ [Lit (txt "host="); Ph (txt "hostname")]) as Hnot.
  { intros H. apply elem_of_cons in H as [E|H]; [discriminate E |].
    apply elem_of_cons in H as [E|H]; [discriminate E |].
    by apply elem_of_nil in H. }
  split; [reflexivity |]. split; [reflexivity |]. split; [exact Hnot |].
  apply (unused_key_irrelevant [(txt "hostname", JString (txt "node1"))] []
           (txt "port") (JInt 8080) [Lit (txt "host="); Ph (txt "hostname")]);
    [reflexivity | reflexivity | exact Hnot].
Defined.

(** * Further properties of the run *)

Section RunFacts.

Variable script : Path.
Variable json_load : text → result document.

Implicit Types fs : filesystem.

(** X7.  The configuration file is checked first: when it does not
    exist, the message is the one for the configuration file, whether the
    template file exists or not. *)
Theorem missing_config_reported_first fs :
  fs !! path_str (CONFIG_PATH script) = None →
  status (main script json_load fs)
  = Some (SystemExit (txt "Config file " ++ txt (path_str (CONFIG_PATH script))
                      ++ txt " not found")).
Proof.
  intros H. unfold main. by rewrite main_body_no_config.
Qed.

(** X8.  The message for the template file comes only when the
    configuration path exists and the template path does not; nothing of
    the configuration is read or decoded before. *)
Theorem missing_template_reported fs (n : node) :
  fs !! path_str (CONFIG_PATH script) = Some n →
  fs !! path_str (TEMPLATE_PATH script) = None →
  status (main script json_load fs)
  = Some (SystemExit (txt "Template file " ++ txt (path_str (TEMPLATE_PATH script))
                      ++ txt " not found")).
Proof.
  intros HC HT. unfold main.
  rewrite main_body_no_template; [done | by rewrite HC | done].
Qed.

(** X9.  The check of existence lets a directory pass: with a directory
    at the configuration path and anything at the template path, the run
    ends in IsADirectoryError with exit code 1 and no file is written. *)
Theorem directory_as_config fs (n : node) :
  fs !! path_str (CONFIG_PATH script) = Some Dir →
  fs !! path_str (TEMPLATE_PATH script) = Some n →
  status (main script json_load fs) = Some IsADirectoryError ∧
  exit_code (main script json_load fs) = 1%Z ∧
  stdout (main script json_load fs) = [] ∧
  files (main script json_load fs) = fs.
Proof.
  intros HC HT.
  assert (main_body script json_load fs = Raise IsADirectoryError) as E.
  { unfold main_body, path_exists, read_text. rewrite HC, HT. cbn.
    rewrite ?bool_decide_eq_true_2 by eauto. done. }
  unfold exit_code, main. by rewrite E.
Qed.

(** X10.  A configuration that decodes to something other than a mapping
    ends the run in AttributeError, after the template was read: exit
    code 1, nothing printed, no file written. *)
Theorem non_mapping_document fs (ctext ttext : text) :
  fs !! path_str (CONFIG_PATH script) = Some (File ctext) →
  fs !! path_str (TEMPLATE_PATH script) = Some (File ttext) →
  json_load ctext = Ok JNotObject →
  status (main script json_load fs) = Some AttributeError ∧
  exit_code (main script json_load fs) = 1%Z ∧
  stdout (main script json_load fs) = [] ∧
  files (main script json_load fs) = fs.
Proof.
  intros HC HT HJ.
  assert (main_body script json_load fs = Raise AttributeError) as E.
  { unfold main_body, path_exists, read_text. rewrite HC, HT. cbn.
    rewrite ?bool_decide_eq_true_2 by eauto. cbn. by rewrite HJ. }
  unfold exit_code, main. by rewrite E.
Qed.

(** X11.  An exception of [json.load] is the exception of the run, with
    exit code 1 and no file written; the template is not opened before, so
    this holds also with a directory at the template path. *)
Theorem decoder_error_propagates fs (ctext : text) (n : node) (e : exn) :
  fs !! path_str (CONFIG_PATH script) = Some (File ctext) →
  fs !! path_str (TEMPLATE_PATH script) = Some n →
  json_load ctext = Raise e →
  status (main script json_load fs) = Some e ∧
  exit_code (main script json_load fs) = 1%Z ∧
  stdout (main script json_load fs) = [] ∧
  files (main script json_load fs) = fs.
Proof.
  intros HC HT HJ.
  assert (main_body script json_load fs = Raise e) as E.
  { unfold main_body, path_exists, read_text. rewrite HC, HT. cbn.
    rewrite ?bool_decide_eq_true_2 by eauto. cbn. by rewrite HJ. }
  unfold exit_code, main. by rewrite E.
Qed.

(** X12.  Running the script again on the files it left gives the same
    run: the same status, the same output and the same files. *)
Theorem rerun_same fs :
  main script json_load (files (main script json_load fs))
  = main script json_load fs.
Proof.
  unfold main at 2 3.
  destruct (main_body script json_load fs) as [[fs' out]|e] eqn:E; [|cbn; unfold main; by rewrite E].
  cbn [files].
  apply main_body_Ok in E as (c & t & cfg & EC & ET & EJ & EO & -> & ->).
  assert (main_body script json_load
            (<[path_str (OUTPUT_PATH script) := File (render cfg t)]> fs)
          = Ok (<[path_str (OUTPUT_PATH script) := File (render cfg t)]> fs,
                [generated (OUTPUT_PATH script)])) as E2.
  { apply main_body_Ok. exists c, t, cfg. split_and!; try done.
    - rewrite lookup_insert_ne; [done |]. apply not_eq_sym, config_path_not_output.
    - rewrite lookup_insert_ne; [done |]. apply not_eq_sym, template_path_not_output.
    - by rewrite lookup_insert_eq.
    - by rewrite insert_insert_eq. }
  unfold main. by rewrite E2.
Qed.

(** X13.  What the output file held before does not matter: with any
    older text at the output path the run ends the same way, prints the
    same and, when it succeeds, leaves the same files. *)
Theorem stale_output_irrelevant fs (stale : text) :
  fs !! path_str (OUTPUT_PATH script) ≠ Some Dir →
  status (main script json_load (<[path_str (OUTPUT_PATH script) := File stale]> fs))
  = status (main script json_load fs) ∧
  stdout (main script json_load (<[path_str (OUTPUT_PATH script) := File stale]> fs))
  = stdout (main script json_load fs) ∧
  (status (main script json_load fs) = None →
   files (main script json_load (<[path_str (OUTPUT_PATH script) := File stale]> fs))
   = files (main script json_load fs)).
Proof.
  intros HO. unfold main, main_body, path_exists, read_text, write_text.
  rewrite !(lookup_insert_ne _ _ (path_str (CONFIG_PATH script)))
    by apply not_eq_sym, config_path_not_output.
  rewrite !(lookup_insert_ne _ _ (path_str (TEMPLATE_PATH script)))
    by apply not_eq_sym, template_path_not_output.
  rewrite lookup_insert_eq.
  destruct (fs !! path_str (CONFIG_PATH script)) as [[ctext| |]|]; cbn; try done.
  all: destruct (fs !! path_str (TEMPLATE_PATH script)) as [[ttext| |]|]; cbn; try done.
  all: destruct (json_load _) as [[cfg|]|]; cbn; try done.
  destruct (fs !! path_str (OUTPUT_PATH script)) as [[old| |]|]; cbn; try done.
  all: by rewrite insert_insert_eq.
Qed.

End RunFacts.

Lemma missing_config_reported_first_witness :
  (∅ : filesystem) !! path_str (CONFIG_PATH example_script) = None ∧
  status (main example_script example_load ∅)
  = Some (SystemExit (txt "Config file "
                      ++ txt (path_str (CONFIG_PATH example_script))
                      ++ txt " not found")).
Proof.
  split; [reflexivity |].
  apply (missing_config_reported_first example_script example_load ∅).
  reflexivity.
Defined.

Lemma missing_template_reported_witness :
  no_template_files !! path_str (CONFIG_PATH example_script)
  = Some (File node_document) ∧
  no_template_files !! path_str (TEMPLATE_PATH example_script) = None ∧
  status (main example_script example_load no_template_files)
  = Some (SystemExit (txt "Template file "
                      ++ txt (path_str (TEMPLATE_PATH example_script))
                      ++ txt " not found")).
Proof.
  split; [vm_compute; reflexivity |]. split; [vm_compute; reflexivity |].
  apply (missing_template_reported example_script example_load no_template_files
           (File node_document)); vm_compute; reflexivity.
Defined.

Lemma directory_as_config_witness :
  directory_files !! path_str (CONFIG_PATH example_script) = Some Dir ∧
  directory_files !! path_str (TEMPLATE_PATH example_script)
  = Some (File node_template) ∧
  status (main example_script example_load directory_files) = Some IsADirectoryError ∧
  exit_code (main example_script example_load directory_files) = 1%Z ∧
  stdout (main example_script example_load directory_files) = [] ∧
  files (main example_script example_load directory_files) = directory_files.
Proof.
  split; [vm_compute; reflexivity |]. split; [vm_compute; reflexivity |].
  apply (directory_as_config example_script example_load directory_files
           (File node_template)); vm_compute; reflexivity.
Defined.

Lemma non_mapping_document_witness :
  array_files !! path_str (CONFIG_PATH example_script) = Some (File (txt "[]")) ∧
  array_files !! path_str (TEMPLATE_PATH example_script) = Some (File node_template) ∧
  example_load (txt "[]") = Ok JNotObject ∧
  status (main example_script example_load array_files) = Some AttributeError ∧
  exit_code (main example_script example_load array_files) = 1%Z ∧
  stdout (main example_script example_load array_files) = [] ∧
  files (main example_script example_load array_files) = array_files.
Proof.
  split; [vm_compute; reflexivity |]. split; [vm_compute; reflexivity |].
  split; [vm_compute; reflexivity |].
  apply (non_mapping_document example_script example_load array_files
           (txt "[]") node_template); vm_compute; reflexivity.
Defined.

Lemma decoder_error_propagates_witness :
  malformed_files !! path_str (CONFIG_PATH example_script) = Some (File (txt "{")) ∧
  malformed_files !! path_str (TEMPLATE_PATH example_script)
  = Some (File node_template) ∧
  example_load (txt "{") = Raise JSONDecodeError ∧
  status (main example_script example_load malformed_files) = Some JSONDecodeError ∧
  exit_code (main example_script example_load malformed_files) = 1%Z ∧
  stdout (main example_script example_load malformed_files) = [] ∧
  files (main example_script example_load malformed_files) = malformed_files.
Proof.
  split; [vm_compute; reflexivity |]. split; [vm_compute; reflexivity |].
  split; [vm_compute; reflexivity |].
  apply (decoder_error_propagates example_script example_load malformed_files
           (txt "{") (File node_template) JSONDecodeError); vm_compute; reflexivity.
Defined.

Lemma stale_output_irrelevant_witness :
  example_files !! path_str (OUTPUT_PATH example_script) ≠ Some Dir ∧
  status (main example_script example_load
            (<[path_str (OUTPUT_PATH example_script) := File (txt "older")]>
               example_files))
  = status (main example_script example_load example_files) ∧
  stdout (main example_script example_load
            (<[path_str (OUTPUT_PATH example_script) := File (txt "older")]>
               example_files))
  = stdout (main example_script example_load example_files) ∧
  (status (main example_script example_load example_files) = None →
   files (main example_script example_load
            (<[path_str (OUTPUT_PATH example_script) := File (txt "older")]>
               example_files))
   = files (main example_script example_load example_files)).
Proof.
  assert (example_files !! path_str (OUTPUT_PATH example_script) ≠ Some Dir) as H.
  { vm_compute. discriminate. }
  split; [exact H |].
  apply (stale_output_irrelevant example_script example_load example_files
           (txt "older") H).
Defined.

(** * Templates without placeholders *)

Lemma occurs_prefix (p q s : text) :
  occurs (p ++ q) s = true → occurs p s = true.
Proof.
  rewrite !occurs_spec. intros (a & b & ->).
  exists a, (q ++ b). by rewrite <- app_assoc.
Qed.

(** X14.  A template in which no two opening braces follow each other,
    such as one with single braces only, is rendered as it is, for every
    configuration. *)
Theorem render_without_opening (config : items) (template : text) :
  occurs [lbrace; lbrace] template = false →
  render config template = template.
Proof.
  intros H. induction config as [|[k v] config IH]; [done |].
  rewrite render_cons, replace_placeholder.
  rewrite replace_scan_absent; [done | done |].
  destruct (occurs (placeholder k) template) eqn:E; [|done].
  change (placeholder k) with ([lbrace; lbrace] ++ (k ++ [rbrace; rbrace])) in E.
  apply occurs_prefix in E. congruence.
Qed.

Lemma render_without_opening_witness :
  occurs [lbrace; lbrace] (txt "d-i preseed/late_command string echo ${HOME} {hostname}")
  = false ∧
  render node_config (txt "d-i preseed/late_command string echo ${HOME} {hostname}")
  = txt "d-i preseed/late_command string echo ${HOME} {hostname}".
Proof.
  split; [reflexivity |].
  apply (render_without_opening node_config). reflexivity.
Defined.

(** A template file that cannot be decoded: both input paths exist,
    reading the template raises and the exit code is 1. *)
Example undecodable_template_run :
  status (main example_script example_load undecodable_files)
  = Some UnicodeDecodeError ∧
  exit_code (main example_script example_load undecodable_files) = 1%Z ∧
  files (main example_script example_load undecodable_files) = undecodable_files.
Proof. by vm_compute. Qed.
